(** * urlshort: the redirect handlers of handler.go

    A shallow embedding of the package [urlshort] (file handler.go) and the
    properties of its two constructors, [MapHandler] and [YAMLHandler].

    Go values are modelled as follows.
    - A Go [string] is a [string] (a sequence of bytes, compared byte by
      byte).
    - A Go [map[string]string] is a reference to a mutable object: the
      package state [World] holds a store from addresses ([loc]) to
      [gmap string string], and a map value is its address.  A nil map is
      an address that is not allocated; indexing it finds nothing.
    - Code with effects runs in the state monad [Go] over [World].
    - [http.Handler] is an interface, modelled by the class [Handler];
      [http.HandlerFunc] is its function instance.  A handler is a non-nil
      value: calling a nil one panics inside the call.
    - What lives outside the package (the response writer and whatever
      else a handler acts on, [http.Redirect], [yaml.Unmarshal]) is taken
      as a parameter.  [http.Redirect] and the fallback run code of the
      caller and may act on the whole state; [yaml.Unmarshal] decodes
      into strings and runs none. *)

From stdpp Require Import base option list strings gmap fin_maps.
From Stdlib Require Import ZArith.

Local Open Scope Z_scope.

(** ** Data *)

(** [type YAMLPathURL struct { URL string; Path string }] *)
Record YAMLPathURL : Type := mkYAMLPathURL {
  URL  : string;
  Path : string
}.

(** The part of [net/url.URL] a handler can read. *)
Record Url : Type := mkUrl {
  url_Scheme   : string;
  url_Host     : string;
  url_Path     : string;
  url_RawQuery : string
}.

(** The part of [net/http.Request] a handler can read. *)
Record Request : Type := mkRequest {
  req_Method : string;
  req_URL    : Url;
  req_Header : list (string * string);
  req_Body   : list Byte.byte
}.

(** Address of a Go map object. *)
Definition loc : Type := positive.

(** [http.StatusFound], the constant 302 of net/http. *)
Definition StatusFound : Z := 302.

(** What the closure of [MapHandler] does with a request: one call of
    [http.Redirect] with a target and a status code, or one call of the
    fallback's [ServeHTTP]. *)
Inductive Action : Type :=
| Redirect (url : string) (code : Z)
| Delegate.

(** ** The package state and its monad *)

Section Package.

(** State outside the package: the responses being written and
    anything else a handler may act on. *)
Context {Env : Type}.
(** [http.ResponseWriter] values. *)
Context {ResponseWriter : Type}.
(** Go's [error] values, nil excluded: a nilable error is an
    [option error]. *)
Context {error : Type}.

Record World : Type := mkWorld {
  maps : gmap loc (gmap string string);
  env  : Env
}.

Definition Go (A : Type) : Type := World -> A * World.

#[local] Instance Go_ret : MRet Go := fun A a σ => (a, σ).

#[local] Instance Go_bind : MBind Go :=
  fun A B f m σ => let '(a, σ') := m σ in f a σ'.

(** The contents of the map at an address; a nil map reads as empty. *)
Definition map_of (σ : World) (m : loc) : gmap string string :=
  default ∅ (maps σ !! m).

(** [make(map[string]string)] *)
Definition map_make : Go loc :=
  fun σ =>
    let l := fresh (dom (maps σ)) in
    (l, {| maps := <[l := ∅]> (maps σ); env := env σ |}).

(** [v, ok := m[k]] *)
Definition map_index (m : loc) (k : string) : Go (option string) :=
  fun σ => (map_of σ m !! k, σ).

(** [m[k] = v] on an allocated map (the package assigns to no other). *)
Definition map_assign (m : loc) (k v : string) : Go unit :=
  fun σ => (tt, {| maps := alter <[k := v]> m (maps σ); env := env σ |}).

(** [for _, x := range xs { body x }] *)
Fixpoint for_range {A : Type} (xs : list A) (body : A -> Go unit) : Go unit :=
  match xs with
  | [] => mret tt
  | x :: xs' => body x ;; for_range xs' body
  end.

(** ** Handlers *)

(** [type Handler interface { ServeHTTP(ResponseWriter, *Request) }] *)
Class Handler (H : Type) : Type :=
  ServeHTTP : H -> ResponseWriter -> Request -> Go unit.

(** [type HandlerFunc func(ResponseWriter, *Request)] *)
Definition HandlerFunc : Type := ResponseWriter -> Request -> Go unit.

(** [func (f HandlerFunc) ServeHTTP(w, r) { f(w, r) }] *)
#[export] Instance HandlerFunc_Handler : Handler HandlerFunc :=
  fun f w r => f w r.

(** [http.Redirect(w, r, url, code)] of net/http replies to the request
    through [w]: it runs the methods of the caller's response writer
    ([Header], [WriteHeader], [Write]).  Like the fallback it is code that
    the package does not hold, and it may act on all that its caller's code
    reaches, the maps included. *)
Variable http_Redirect : ResponseWriter -> Request -> string -> Z -> Go unit.

(** [func MapHandler(pathsToUrls map[string]string, fallback http.Handler) http.HandlerFunc] *)
Definition MapHandler `{Handler H} (pathsToUrls : loc) (fallback : H) : HandlerFunc :=
  let handler := fun (w : ResponseWriter) (r : Request) =>
    let path := url_Path (req_URL r) in
    o ← map_index pathsToUrls path;
    match o with
    | Some url => http_Redirect w r url StatusFound
    | None => ServeHTTP fallback w r
    end in
  handler.

(** [yaml.Unmarshal(yml, &yamlPathURLs)] of gopkg.in/yaml.v2 on a nil
    slice: the decoded slice and the error (nil on success). *)
Variable yaml_Unmarshal : list Byte.byte -> list YAMLPathURL * option error.

(** [func parseYAML(yml []byte) ([]YAMLPathURL, error)] *)
Definition parseYAML (yml : list Byte.byte) : list YAMLPathURL * option error :=
  let '(yamlPathURLs, err) := yaml_Unmarshal yml in
  (yamlPathURLs, err).

(** [func makeYAMLToMap(yamlPathURLs []YAMLPathURL) map[string]string] *)
Definition makeYAMLToMap (yamlPathURLs : list YAMLPathURL) : Go loc :=
  pathsToUrls ← map_make;
  for_range yamlPathURLs (fun yamlPathURL =>
    map_assign pathsToUrls (Path yamlPathURL) (URL yamlPathURL)) ;;
  mret pathsToUrls.

(** [func YAMLHandler(yml []byte, fallback http.Handler) (http.HandlerFunc, error)];
    the nil [http.HandlerFunc] is [None]. *)
Definition YAMLHandler `{Handler H} (yml : list Byte.byte) (fallback : H)
    : Go (option HandlerFunc * option error) :=
  let handler : option HandlerFunc := None in
  let '(yamlPathURLs, err) := parseYAML yml in
  match err with
  | Some _ => mret (handler, err)
  | None =>
      pathsToUrls ← makeYAMLToMap yamlPathURLs;
      let handler := Some (MapHandler pathsToUrls fallback) in
      mret (handler, err)
  end.

(** ** Observing a handler *)

(** The effect of one action on behalf of a handler serving [r] through [w]. *)
Definition do_action `{Handler H} (fallback : H) (a : Action) : HandlerFunc :=
  fun w r =>
    match a with
    | Redirect url code => http_Redirect w r url code
    | Delegate => ServeHTTP fallback w r
    end.

End Package.

(** ** Instances of the parameters used in the examples *)

(** An environment that records the actions done, with the
    [http.Redirect] and the fallback that append to it. *)
Definition rec_Redirect : unit -> Request -> string -> Z -> @Go (list Action) unit :=
  fun _ _ url code σ => (tt, {| maps := maps σ; env := env σ ++ [Redirect url code] |}).

Definition rec_fallback : @HandlerFunc (list Action) unit :=
  fun _ _ σ => (tt, {| maps := maps σ; env := env σ ++ [Delegate] |}).

(** A fallback that holds the map it is the fallback of and registers the
    requested path in it:
    [func(w, r) { pathsToUrls[r.URL.Path] = "/new" }]. *)
Definition registering_fallback (pathsToUrls : loc) : @HandlerFunc unit unit :=
  fun _ r => map_assign pathsToUrls (url_Path (req_URL r)) "/new".

(** A fallback that replies only ([http.NotFound]-like): it writes to the
    environment, here a log of the paths it was asked. *)
Definition replying_fallback : @HandlerFunc (list string) unit :=
  fun _ r σ => (tt, {| maps := maps σ; env := env σ ++ [url_Path (req_URL r)] |}).

Definition get (path : string) : Request :=
  {| req_Method := "GET";
     req_URL := {| url_Scheme := ""; url_Host := ""; url_Path := path; url_RawQuery := "" |};
     req_Header := [];
     req_Body := [] |}.

Definition post (path query : string) : Request :=
  {| req_Method := "POST";
     req_URL := {| url_Scheme := "https"; url_Host := "sho.rt"; url_Path := path;
                   url_RawQuery := query |};
     req_Header := [("Content-Type", "text/plain")];
     req_Body := [Byte.x68; Byte.x69] |}.

Definition sample_yaml : string := "[{path: /a, url: https://a.example}, {path: /b, url: https://b.example}]".

Definition sample_entries : list YAMLPathURL :=
  [ {| URL := "https://a.example"; Path := "/a" |};
    {| URL := "https://b.example"; Path := "/b" |} ].

(** A decoder that knows two documents, the sample and the empty one, and
    fails on every other input. *)
Definition sample_Unmarshal (yml : list Byte.byte) : list YAMLPathURL * option string :=
  if String.eqb (String.string_of_list_byte yml) sample_yaml then (sample_entries, None)
  else if String.eqb (String.string_of_list_byte yml) "" then ([], None)
  else ([], Some "yaml: did not find expected node content").

(** A state with one map, at address 1. *)
Definition one_map {Env : Type} (m : gmap string string) (e : Env) : @World Env :=
  {| maps := {[1%positive := m]}; env := e |}.

Definition short_links : gmap string string :=
  {["/abc" := "https://example.com/abc"]}.

(** An [http.Redirect] through a response writer that holds the map and
    notes in it the targets it is sent:
    [func (w auditing) WriteHeader(code int) { pathsToUrls[w.Header().Get("Location")] = "/seen" }]. *)
Definition auditing_Redirect (pathsToUrls : loc)
    : unit -> Request -> string -> Z -> @Go unit unit :=
  fun _ _ url _ => map_assign pathsToUrls url "/seen".

(** A fallback that does nothing. *)
Definition silent_fallback {Env RW : Type} : @HandlerFunc Env RW :=
  fun _ _ σ => (tt, σ).

(** What a response carries once a redirect has been written to it: the
    status code and the target (the [Location]). *)
Record Reply : Type := mkReply {
  reply_status : Z;
  reply_Location : string
}.

(** Modelled from the spec: [http.Redirect] is net/http's and is not in
    the sources of the package; by the standard redirect semantics the
    spec refers to, it writes to the response of [w] the status code and
    the target it is given.  The environment holds the reply of each
    response writer, the writers being numbered. *)
Definition replying_Redirect : nat -> Request -> string -> Z -> @Go (gmap nat Reply) unit :=
  fun w _ url code σ =>
    (tt, {| maps := maps σ;
            env := <[w := {| reply_status := code; reply_Location := url |}]> (env σ) |}).

Definition reply_in (σ : @World (gmap nat Reply)) (w : nat) : option Reply :=
  env σ !! w.

(** The map that a list of path/URL pairs denotes: each path is bound to
    its URL, a later pair overriding an earlier one that has the same
    path.  It is defined on the list alone, not by the code of the
    package. *)
Definition pairs_map (pairs : list YAMLPathURL) : gmap string string :=
  list_to_map (reverse ((fun pair => (Path pair, URL pair)) <$> pairs)).

(** The contents of a map after the assignments of [makeYAMLToMap]'s loop. *)
Definition assigned (yamlPathURLs : list YAMLPathURL) (m : gmap string string)
    : gmap string string :=
  foldl (fun m yamlPathURL => <[Path yamlPathURL := URL yamlPathURL]> m) m yamlPathURLs.

(** [performs m path a]: serving a request for [path] when the map holds
    [m], the closure of [MapHandler] does [a] and nothing else, whatever
    the environment, [http.Redirect], the fallback, the response writer,
    the rest of the request and the rest of the state are. *)
Definition performs (m : gmap string string) (path : string) (a : Action) : Prop :=
  forall (Env RW : Type) (redirect : RW -> Request -> string -> Z -> @Go Env unit)
         (H : Type) (HH : @Handler Env RW H) (fallback : H)
         (pathsToUrls : loc) (w : RW) (r : Request) (σ : @World Env),
    map_of σ pathsToUrls = m ->
    url_Path (req_URL r) = path ->
    MapHandler redirect pathsToUrls fallback w r σ = do_action redirect fallback a w r σ.

(** * Properties *)

Section Properties.

Context {Env RW error : Type}.
Variable redirect : RW -> Request -> string -> Z -> @Go Env unit.
Variable unmarshal : list Byte.byte -> list YAMLPathURL * option error.
Context {H : Type} {HH : @Handler Env RW H}.

Implicit Types (σ τ : @World Env) (w : RW) (r : Request) (fallback : H).
Implicit Types (m : gmap string string) (path url : string) (pathsToUrls : loc).

Lemma World_eta σ : {| maps := maps σ; env := env σ |} = σ.
Proof. by destruct σ. Qed.

(** The closure does the action that the lookup selects. *)
Lemma MapHandler_run pathsToUrls fallback w r σ :
  MapHandler redirect pathsToUrls fallback w r σ =
  do_action redirect fallback
    (match map_of σ pathsToUrls !! url_Path (req_URL r) with
     | Some url => Redirect url StatusFound
     | None => Delegate
     end) w r σ.
Proof.
  unfold MapHandler, do_action, mbind, Go_bind, map_index; simpl.
  by destruct (map_of σ pathsToUrls !! url_Path (req_URL r)).
Qed.

Lemma assigned_lookup (l : list YAMLPathURL) m path :
  assigned l m !! path =
  match last (filter (fun e => Path e = path) l) with
  | Some e => Some (URL e)
  | None => m !! path
  end.
Proof.
  revert m; induction l as [|e l IH]; intros m; [done|].
  unfold assigned in *; cbn [foldl]; rewrite IH.
  destruct (decide (Path e = path)) as [He|He].
  - rewrite filter_cons_True by done. rewrite last_cons.
    destruct (last (filter _ l)); [done|].
    by rewrite <- He, lookup_insert_eq.
  - rewrite filter_cons_False by done.
    destruct (last (filter _ l)); [done|].
    by rewrite lookup_insert_ne.
Qed.

(** From the empty map, the loop's assignments give the map that the
    list denotes. *)
Lemma assigned_pairs_map (l : list YAMLPathURL) : assigned l ∅ = pairs_map l.
Proof.
  induction l as [|e l IH] using rev_ind; [done|].
  unfold pairs_map, assigned in *.
  rewrite foldl_app, fmap_app, reverse_app; cbn.
  by rewrite IH.
Qed.

(** The loop assigns to the one map and to nothing else. *)
Lemma for_range_assign pathsToUrls (l : list YAMLPathURL) σ :
  for_range l (fun e => map_assign pathsToUrls (Path e) (URL e)) σ =
  (tt, {| maps := alter (assigned l) pathsToUrls (maps σ); env := env σ |}).
Proof.
  revert σ; induction l as [|e l IH]; intros σ.
  - cbn [for_range]. unfold mret, Go_ret. rewrite alter_id by (intros; reflexivity).
    by rewrite World_eta.
  - cbn [for_range]. unfold mbind, Go_bind. cbn [map_assign].
    rewrite IH; cbn [maps env].
    by rewrite alter_alter_eq.
Qed.

Lemma makeYAMLToMap_run (l : list YAMLPathURL) σ :
  makeYAMLToMap l σ =
  (fresh (dom (maps σ)),
   {| maps := <[fresh (dom (maps σ)) := assigned l ∅]> (maps σ); env := env σ |}).
Proof.
  unfold makeYAMLToMap, mbind, Go_bind, map_make, mret, Go_ret.
  rewrite for_range_assign; cbn [maps env].
  by rewrite alter_insert_eq.
Qed.

Lemma YAMLHandler_run_ok yml fallback (l : list YAMLPathURL) σ :
  unmarshal yml = (l, None) ->
  YAMLHandler redirect unmarshal yml fallback σ =
  let '(pathsToUrls, σ') := makeYAMLToMap l σ in
  ((Some (MapHandler redirect pathsToUrls fallback), None), σ').
Proof.
  intros Hl. unfold YAMLHandler, parseYAML. rewrite Hl.
  unfold mbind, Go_bind. by destruct (makeYAMLToMap l σ).
Qed.

(** ** The loader *)

(** C2: when the YAML input decodes without error into a list of
    path/URL pairs, [YAMLHandler] returns a handler and a nil error; the
    map the handler holds is the one [makeYAMLToMap] built, and its contents
    are the map that the list denotes ([pairs_map]).  The handler does,
    on every request and in every state that holds its map as built, what
    the handler of [MapHandler] does there for any map with these contents
    supplied directly, with the same fallback. *)
Theorem YAMLHandler_refines_MapHandler yml fallback (l : list YAMLPathURL) σ :
  unmarshal yml = (l, None) ->
  exists handler pathsToUrls σ',
    YAMLHandler redirect unmarshal yml fallback σ = ((Some handler, None), σ') /\
    makeYAMLToMap l σ = (pathsToUrls, σ') /\
    (forall w r τ, handler w r τ = MapHandler redirect pathsToUrls fallback w r τ) /\
    map_of σ' pathsToUrls = pairs_map l /\
    forall supplied w r τ,
      map_of τ pathsToUrls = map_of σ' pathsToUrls ->
      map_of τ supplied = pairs_map l ->
      handler w r τ = MapHandler redirect supplied fallback w r τ.
Proof.
  intros Hl. rewrite (YAMLHandler_run_ok _ _ _ _ Hl).
  rewrite makeYAMLToMap_run.
  eexists _, _, _. split; [reflexivity|]. split; [reflexivity|].
  split; [reflexivity|].
  assert (Hbuilt : map_of {| maps := <[fresh (dom (maps σ)) := assigned l ∅]> (maps σ);
                            env := env σ |} (fresh (dom (maps σ))) = pairs_map l).
  { unfold map_of; cbn [maps]. rewrite lookup_insert_eq; simpl.
    apply assigned_pairs_map. }
  split; [exact Hbuilt|].
  intros supplied w r τ Hτ Hsupplied.
  by rewrite !MapHandler_run, Hτ, Hbuilt, Hsupplied.
Qed.

(** C3: the error [YAMLHandler] returns is the error of the decoder,
    unchanged: it is non-nil exactly when decoding fails, and the call has
    no other outcome than a handler with a nil error or a nil handler with
    the decoder's error. *)
Theorem YAMLHandler_error_is_parse_error yml fallback σ :
  (YAMLHandler redirect unmarshal yml fallback σ).1.2 = (unmarshal yml).2 /\
  ((YAMLHandler redirect unmarshal yml fallback σ).1.2 <> None <->
   (unmarshal yml).2 <> None) /\
  match (unmarshal yml).2 with
  | Some e => (YAMLHandler redirect unmarshal yml fallback σ).1 = (None, Some e)
  | None => exists handler,
      (YAMLHandler redirect unmarshal yml fallback σ).1 = (Some handler, None)
  end.
Proof.
  unfold YAMLHandler, parseYAML.
  destruct (unmarshal yml) as [l [e|]]; cbn [snd].
  - by repeat split.
  - unfold mbind, Go_bind. destruct (makeYAMLToMap l σ) as [pathsToUrls σ'].
    repeat split; eauto.
Qed.

(** C9: when decoding fails, [YAMLHandler] returns the nil handler with
    the decoder's error, and leaves the state as it was: no map is built
    and no handler is made. *)
Theorem YAMLHandler_error_nil_handler yml fallback σ (e : error) :
  (unmarshal yml).2 = Some e ->
  YAMLHandler redirect unmarshal yml fallback σ = ((None, Some e), σ).
Proof.
  unfold YAMLHandler, parseYAML.
  destruct (unmarshal yml) as [l err]; cbn [snd]; intros ->.
  reflexivity.
Qed.

(** C8: the map built by [makeYAMLToMap] binds a path to the URL of the
    last entry of the list that has this path (and to nothing when no
    entry has it): a later entry overrides the earlier ones. *)
Theorem makeYAMLToMap_last_wins (l : list YAMLPathURL) σ path :
  exists pathsToUrls σ',
    makeYAMLToMap l σ = (pathsToUrls, σ') /\
    map_of σ' pathsToUrls !! path = URL <$> last (filter (fun e => Path e = path) l).
Proof.
  rewrite makeYAMLToMap_run. eexists _, _; split; [reflexivity|].
  unfold map_of; cbn [maps]. rewrite lookup_insert_eq; simpl.
  rewrite assigned_lookup, lookup_empty.
  by destruct (last _).
Qed.

(** C10: for the empty list [makeYAMLToMap] builds the empty map, and the
    handler of [MapHandler] for it delegates every request to the fallback,
    in the state the map was built in and in every state that holds the
    map as built. *)
Theorem empty_list_always_delegates σ :
  exists pathsToUrls σ',
    makeYAMLToMap [] σ = (pathsToUrls, σ') /\
    map_of σ' pathsToUrls = ∅ /\
    (forall fallback w r,
       MapHandler redirect pathsToUrls fallback w r σ' = ServeHTTP fallback w r σ') /\
    (forall fallback w r τ,
       map_of τ pathsToUrls = map_of σ' pathsToUrls ->
       MapHandler redirect pathsToUrls fallback w r τ = ServeHTTP fallback w r τ).
Proof.
  rewrite makeYAMLToMap_run. eexists _, _; split; [reflexivity|].
  assert (Hempty : map_of {| maps := <[fresh (dom (maps σ)) := assigned [] ∅]> (maps σ);
                            env := env σ |} (fresh (dom (maps σ))) = ∅).
  { unfold map_of; cbn [maps]. by rewrite lookup_insert_eq. }
  split; [exact Hempty|]. split.
  - intros fallback w r. rewrite MapHandler_run, Hempty, lookup_empty. reflexivity.
  - intros fallback w r τ Hτ. rewrite MapHandler_run, Hτ, Hempty, lookup_empty.
    reflexivity.
Qed.

(** [makeYAMLToMap] allocates: the address it returns was free, and the
    maps that existed and the environment are as they were. *)
Theorem makeYAMLToMap_fresh (l : list YAMLPathURL) σ :
  exists pathsToUrls σ',
    makeYAMLToMap l σ = (pathsToUrls, σ') /\
    maps σ !! pathsToUrls = None /\
    env σ' = env σ /\
    forall l', l' <> pathsToUrls -> maps σ' !! l' = maps σ !! l'.
Proof.
  rewrite makeYAMLToMap_run. eexists _, _; split; [reflexivity|].
  split; [|split; [reflexivity|]].
  - apply not_elem_of_dom, is_fresh.
  - intros l' Hl'; cbn [maps]. by apply lookup_insert_ne.
Qed.

(** The keys of the built map are the paths of the entries. *)
Theorem makeYAMLToMap_keys (l : list YAMLPathURL) σ path :
  exists pathsToUrls σ',
    makeYAMLToMap l σ = (pathsToUrls, σ') /\
    (is_Some (map_of σ' pathsToUrls !! path) <-> path ∈ Path <$> l).
Proof.
  rewrite makeYAMLToMap_run. eexists _, _; split; [reflexivity|].
  unfold map_of; cbn [maps]. rewrite lookup_insert_eq; simpl.
  rewrite assigned_lookup, lookup_empty, list_elem_of_fmap.
  destruct (last (filter _ l)) as [e|] eqn:Hlast.
  - split; [intros _|by eauto].
    apply last_Some_elem_of, list_elem_of_filter in Hlast as [He Hin].
    by exists e.
  - split; [by intros [? ?]|]. intros (e & -> & Hin).
    apply last_None in Hlast.
    assert (e ∈ filter (fun e' => Path e' = Path e) l) as Hf
      by (by apply list_elem_of_filter).
    rewrite Hlast in Hf. by apply not_elem_of_nil in Hf.
Qed.

(** ** The dispatcher *)

(** C7 (amended): the closure itself only reads the map.  The maps
    after the handler has run are as the one call it makes leaves them:
    [http.Redirect], which runs the methods of the caller's response
    writer, for a request whose path is a key, and the fallback's
    [ServeHTTP] for any other request.  So when neither the response
    writer (through [http.Redirect]) nor the fallback modifies the supplied
    map, the map is the same before and after the handler runs, for every
    request. *)
Theorem MapHandler_map_frame pathsToUrls fallback :
  (forall w r σ,
     maps (MapHandler redirect pathsToUrls fallback w r σ).2 =
     match map_of σ pathsToUrls !! url_Path (req_URL r) with
     | Some url => maps (redirect w r url StatusFound σ).2
     | None => maps (ServeHTTP fallback w r σ).2
     end) /\
  ((forall w r url code σ,
      map_of (redirect w r url code σ).2 pathsToUrls = map_of σ pathsToUrls) ->
   (forall w r σ,
      map_of (ServeHTTP fallback w r σ).2 pathsToUrls = map_of σ pathsToUrls) ->
   forall w r σ,
     map_of (MapHandler redirect pathsToUrls fallback w r σ).2 pathsToUrls =
     map_of σ pathsToUrls).
Proof.
  split.
  - intros w r σ. rewrite MapHandler_run.
    by destruct (map_of σ pathsToUrls !! url_Path (req_URL r)).
  - intros Hwriter Hfallback w r σ. rewrite MapHandler_run.
    destruct (map_of σ pathsToUrls !! url_Path (req_URL r)) as [url|].
    + apply Hwriter.
    + apply Hfallback.
Qed.

End Properties.

(** ** The reply of a redirect *)

Section Reply.

Context {Env RW : Type}.
Variable redirect : RW -> Request -> string -> Z -> @Go Env unit.
Context {H : Type} {HH : @Handler Env RW H}.

(** What the response written through a response writer carries. *)
Variable reply_of : @World Env -> RW -> option Reply.

(** Modelled from the spec: [http.Redirect] is net/http's and is not in
    the sources of the package; by the standard redirect semantics the
    spec refers to, the response it has written through [w] carries the
    status code and the target it was given. *)
Hypothesis redirect_replies : forall w r url code σ,
  reply_of (redirect w r url code σ).2 w =
  Some {| reply_status := code; reply_Location := url |}.

(** C5: when the request path is found in the map, the closure calls
    [http.Redirect] on the request with the mapped URL and
    [http.StatusFound], which is 302, and does nothing else; so the
    response carries the status 302 (Found) and the mapped URL as the
    redirect target. *)
Theorem MapHandler_redirect_found (pathsToUrls : loc) (fallback : H) (w : RW)
    (r : Request) (σ : @World Env) (url : string) :
  map_of σ pathsToUrls !! url_Path (req_URL r) = Some url ->
  StatusFound = 302 /\
  MapHandler redirect pathsToUrls fallback w r σ = redirect w r url StatusFound σ /\
  reply_of (MapHandler redirect pathsToUrls fallback w r σ).2 w =
    Some {| reply_status := 302; reply_Location := url |}.
Proof.
  intros Hurl.
  assert (Hcall : MapHandler redirect pathsToUrls fallback w r σ =
                  redirect w r url StatusFound σ)
    by (by rewrite MapHandler_run, Hurl).
  split; [reflexivity|]. split; [exact Hcall|].
  rewrite Hcall. apply redirect_replies.
Qed.

End Reply.

(** ** What the closure performs *)

Lemma performs_lookup (m : gmap string string) (path : string) :
  performs m path
    (match m !! path with
     | Some url => Redirect url StatusFound
     | None => Delegate
     end).
Proof.
  intros Env RW redirect H HH fallback pathsToUrls w r σ Hm Hpath.
  by rewrite MapHandler_run, Hm, Hpath.
Qed.

Lemma do_action_recorded (a : Action) (r : Request) (σ : @World (list Action)) :
  env (do_action rec_Redirect rec_fallback a tt r σ).2 = env σ ++ [a].
Proof. by destruct a. Qed.

Lemma one_map_of {Env : Type} (m : gmap string string) (e : Env) :
  map_of (one_map m e) 1%positive = m.
Proof. unfold map_of, one_map; cbn [maps]. by rewrite lookup_singleton_eq. Qed.

(** The recording environment tells two actions apart, so a request
    admits one action at most. *)
Lemma performs_functional (m : gmap string string) (path : string) (a a' : Action) :
  performs m path a -> performs m path a' -> a = a'.
Proof.
  intros Ha Ha'.
  pose proof (Ha _ _ rec_Redirect _ _ rec_fallback 1%positive tt (get path)
                 (one_map m []) (one_map_of m []) eq_refl) as E.
  pose proof (Ha' _ _ rec_Redirect _ _ rec_fallback 1%positive tt (get path)
                 (one_map m []) (one_map_of m []) eq_refl) as E'.
  rewrite E in E'. apply (f_equal (fun x => env x.2)) in E'.
  rewrite !do_action_recorded in E'. by simplify_list_eq.
Qed.

(** The closure delegates exactly when the path is not a key, and
    redirects to a URL with a code exactly when the path is bound to the
    URL and the code is [http.StatusFound]. *)
Theorem performs_iff (m : gmap string string) (path : string) :
  (performs m path Delegate <-> m !! path = None) /\
  (forall url code,
     performs m path (Redirect url code) <-> m !! path = Some url /\ code = StatusFound).
Proof.
  pose proof (performs_lookup m path) as Hp.
  split; [|intros url code]; split.
  - intros Hd. destruct (m !! path); [|done].
    by pose proof (performs_functional _ _ _ _ Hd Hp).
  - by intros Hnone; rewrite Hnone in Hp.
  - intros Hr. destruct (m !! path).
    + pose proof (performs_functional _ _ _ _ Hr Hp) as [= -> ->]. done.
    + by pose proof (performs_functional _ _ _ _ Hr Hp).
  - intros [Hurl ->]. by rewrite Hurl in Hp.
Qed.

(** C1: for every map and every request path, the closure of [MapHandler]
    redirects to the mapped URL (with [http.StatusFound]) when the path is a
    key of the map, and calls the fallback on the request otherwise; the
    action it does is the only one (a redirect and a call of the fallback
    never both occur, and never neither). *)
Theorem MapHandler_redirect_or_fallback (m : gmap string string) (path : string) :
  (forall url, m !! path = Some url -> performs m path (Redirect url StatusFound)) /\
  (m !! path = None -> performs m path Delegate) /\
  (forall a a', performs m path a -> performs m path a' -> a = a').
Proof.
  split; [|split].
  - intros url Hurl. generalize (performs_lookup m path). by rewrite Hurl.
  - intros Hnone. generalize (performs_lookup m path). by rewrite Hnone.
  - apply performs_functional.
Qed.

(** C4: when no key of the map is equal, byte for byte, to the request
    path, the closure delegates to the fallback, whatever else the keys
    are (a key that extends the path, or that the path extends, does not
    match). *)
Theorem MapHandler_exact_match (m : gmap string string) (path : string) :
  (forall k, is_Some (m !! k) -> k <> path) ->
  performs m path Delegate.
Proof.
  intros Hkeys. generalize (performs_lookup m path).
  destruct (m !! path) as [url|] eqn:Hpath; [|done].
  by destruct (Hkeys path).
Qed.

(** C6: two requests with the same path, served against the same map
    contents with the same fallback, get the same action, whatever else
    differs between them (the other fields of the request, the response
    writer, the address of the map, the rest of the state); the action is
    the one that the map contents and the path determine. *)
Theorem dispatch_depends_on_path_and_map
    (Env RW : Type) (redirect : RW -> Request -> string -> Z -> @Go Env unit)
    (H : Type) (HH : @Handler Env RW H) (fallback : H)
    (l1 l2 : loc) (w1 w2 : RW) (r1 r2 : Request) (σ1 σ2 : @World Env) :
  url_Path (req_URL r1) = url_Path (req_URL r2) ->
  map_of σ1 l1 = map_of σ2 l2 ->
  exists a : Action,
    MapHandler redirect l1 fallback w1 r1 σ1 = do_action redirect fallback a w1 r1 σ1 /\
    MapHandler redirect l2 fallback w2 r2 σ2 = do_action redirect fallback a w2 r2 σ2 /\
    performs (map_of σ1 l1) (url_Path (req_URL r1)) a.
Proof.
  intros Hpath Hmap.
  exists (match map_of σ1 l1 !! url_Path (req_URL r1) with
          | Some url => Redirect url StatusFound
          | None => Delegate
          end).
  split; [apply MapHandler_run|]. split; [|apply performs_lookup].
  rewrite Hmap, Hpath. apply MapHandler_run.
Qed.

(** A handler of [MapHandler] as the fallback of another: the outer map
    is looked up first, then the inner one, then the inner fallback. *)
Theorem MapHandler_chain
    (Env RW : Type) (redirect : RW -> Request -> string -> Z -> @Go Env unit)
    (H : Type) (HH : @Handler Env RW H) (fallback : H)
    (outer inner : loc) (w : RW) (r : Request) (σ : @World Env) :
  MapHandler redirect outer (MapHandler redirect inner fallback) w r σ =
  do_action redirect fallback
    (match map_of σ outer !! url_Path (req_URL r) with
     | Some url => Redirect url StatusFound
     | None =>
         match map_of σ inner !! url_Path (req_URL r) with
         | Some url => Redirect url StatusFound
         | None => Delegate
         end
     end) w r σ.
Proof.
  rewrite MapHandler_run.
  destruct (map_of σ outer !! url_Path (req_URL r)); [reflexivity|].
  cbn [do_action]. unfold ServeHTTP at 1, HandlerFunc_Handler.
  apply MapHandler_run.
Qed.

(** ** Examples *)

(** C7, counterexample: code of the caller that holds the map writes to
    it while the handler runs.  First a fallback that registers the
    requested path: the map at address 1 has no key ["/x"] before the
    handler serves a request for ["/x"], and has it afterwards.  Then a
    response writer that notes the redirect targets: serving the key
    ["/abc"], with a fallback that does nothing, adds a key to the map. *)
Lemma MapHandler_fallback_may_write_map :
  (map_of (one_map short_links tt) 1%positive !! "/x" = None /\
   map_of (MapHandler (fun _ _ _ _ σ => (tt, σ)) 1%positive (registering_fallback 1%positive)
             tt (get "/x") (one_map short_links tt)).2 1%positive !! "/x" = Some "/new" /\
   map_of (MapHandler (fun _ _ _ _ σ => (tt, σ)) 1%positive (registering_fallback 1%positive)
             tt (get "/x") (one_map short_links tt)).2 1%positive
   <> map_of (one_map short_links tt) 1%positive) /\
  (map_of (one_map short_links tt) 1%positive !! "https://example.com/abc" = None /\
   map_of (MapHandler (auditing_Redirect 1%positive) 1%positive silent_fallback
             tt (get "/abc") (one_map short_links tt)).2 1%positive
     !! "https://example.com/abc" = Some "/seen" /\
   map_of (MapHandler (auditing_Redirect 1%positive) 1%positive silent_fallback
             tt (get "/abc") (one_map short_links tt)).2 1%positive
   <> map_of (one_map short_links tt) 1%positive).
Proof.
  split.
  - assert (Hbefore : map_of (one_map short_links tt) 1%positive !! "/x" = None)
      by (rewrite one_map_of; apply lookup_singleton_ne; discriminate).
    assert (Hafter :
      map_of (MapHandler (fun _ _ _ _ σ => (tt, σ)) 1%positive
                (registering_fallback 1%positive)
                tt (get "/x") (one_map short_links tt)).2 1%positive !! "/x" = Some "/new").
    { rewrite MapHandler_run. cbn [get req_URL url_Path]. rewrite Hbefore.
      unfold do_action, ServeHTTP, HandlerFunc_Handler, registering_fallback, map_assign.
      unfold map_of, one_map; cbn [snd maps get req_URL url_Path].
      rewrite lookup_alter_eq, lookup_singleton_eq. cbn.
      apply lookup_insert_eq. }
    split; [exact Hbefore|]. split; [exact Hafter|].
    intros Heq. rewrite Heq, Hbefore in Hafter. discriminate.
  - assert (Hbefore : map_of (one_map short_links tt) 1%positive
                        !! "https://example.com/abc" = None)
      by (rewrite one_map_of; apply lookup_singleton_ne; discriminate).
    assert (Hkey : map_of (one_map short_links tt) 1%positive !! "/abc" =
                   Some "https://example.com/abc")
      by (rewrite one_map_of; apply lookup_singleton_eq).
    assert (Hafter :
      map_of (MapHandler (auditing_Redirect 1%positive) 1%positive silent_fallback
                tt (get "/abc") (one_map short_links tt)).2 1%positive
        !! "https://example.com/abc" = Some "/seen").
    { rewrite MapHandler_run. cbn [get req_URL url_Path]. rewrite Hkey.
      unfold do_action, auditing_Redirect, map_assign.
      unfold map_of, one_map; cbn [snd maps].
      rewrite lookup_alter_eq, lookup_singleton_eq. cbn.
      apply lookup_insert_eq. }
    split; [exact Hbefore|]. split; [exact Hafter|].
    intros Heq. rewrite Heq, Hbefore in Hafter. discriminate.
Qed.

(** A response writer and a fallback that reply only. *)
Lemma MapHandler_map_frame_witness :
  map_of (MapHandler rec_Redirect 1%positive rec_fallback
            tt (get "/x") (one_map short_links [])).2 1%positive =
  map_of (one_map short_links ([] : list Action)) 1%positive /\
  map_of (MapHandler rec_Redirect 1%positive rec_fallback
            tt (get "/abc") (one_map short_links [])).2 1%positive =
  map_of (one_map short_links ([] : list Action)) 1%positive.
Proof.
  split.
  - apply (proj2 (MapHandler_map_frame rec_Redirect 1%positive rec_fallback)).
    + intros w r url code σ. reflexivity.
    + intros w r σ. reflexivity.
  - apply (proj2 (MapHandler_map_frame rec_Redirect 1%positive rec_fallback)).
    + intros w r url code σ. reflexivity.
    + intros w r σ. reflexivity.
Defined.

(** The handler of the sample document, and [MapHandler] for a map with
    the same two bindings supplied at another address. *)
Lemma YAMLHandler_refines_MapHandler_witness :
  sample_Unmarshal (String.list_byte_of_string sample_yaml) = (sample_entries, None) /\
  pairs_map sample_entries =
    {[ "/a" := "https://a.example"; "/b" := "https://b.example" ]} /\
  exists handler pathsToUrls σ',
    YAMLHandler rec_Redirect sample_Unmarshal (String.list_byte_of_string sample_yaml)
      rec_fallback (one_map short_links []) = ((Some handler, None), σ') /\
    makeYAMLToMap sample_entries (one_map short_links []) = (pathsToUrls, σ') /\
    (forall w r τ, handler w r τ = MapHandler rec_Redirect pathsToUrls rec_fallback w r τ) /\
    map_of σ' pathsToUrls = pairs_map sample_entries /\
    forall supplied w r τ,
      map_of τ pathsToUrls = map_of σ' pathsToUrls ->
      map_of τ supplied = pairs_map sample_entries ->
      handler w r τ = MapHandler rec_Redirect supplied rec_fallback w r τ.
Proof.
  split; [reflexivity|]. split; [reflexivity|].
  apply (YAMLHandler_refines_MapHandler rec_Redirect sample_Unmarshal
           (String.list_byte_of_string sample_yaml) rec_fallback sample_entries
           (one_map short_links [])).
  reflexivity.
Defined.

Lemma YAMLHandler_error_nil_handler_witness :
  (sample_Unmarshal [Byte.x7b]).2 = Some "yaml: did not find expected node content" /\
  YAMLHandler rec_Redirect sample_Unmarshal [Byte.x7b] rec_fallback (one_map short_links []) =
    ((None, Some "yaml: did not find expected node content"), one_map short_links []).
Proof.
  split; [reflexivity|].
  apply (YAMLHandler_error_nil_handler rec_Redirect sample_Unmarshal [Byte.x7b]
           rec_fallback (one_map short_links [])).
  reflexivity.
Defined.

(** The path ["/ab"] is a prefix of the key ["/abc"] and the path
    ["/abc/"] extends it; neither is the key. *)
Lemma MapHandler_exact_match_witness :
  String.prefix "/ab" "/abc" = true /\ String.prefix "/abc" "/abc/" = true /\
  performs short_links "/ab" Delegate /\ performs short_links "/abc/" Delegate.
Proof.
  split; [reflexivity|]. split; [reflexivity|]. split.
  - apply (MapHandler_exact_match short_links "/ab").
    intros k [url Hk]. unfold short_links in Hk.
    apply lookup_singleton_Some in Hk as [<- _]. discriminate.
  - apply (MapHandler_exact_match short_links "/abc/").
    intros k [url Hk]. unfold short_links in Hk.
    apply lookup_singleton_Some in Hk as [<- _]. discriminate.
Defined.

Lemma MapHandler_redirect_found_witness :
  StatusFound = 302 /\
  MapHandler replying_Redirect 1%positive silent_fallback 7%nat (get "/abc")
      (one_map short_links ∅) =
    replying_Redirect 7%nat (get "/abc") "https://example.com/abc" StatusFound
      (one_map short_links ∅) /\
  reply_in (MapHandler replying_Redirect 1%positive silent_fallback 7%nat (get "/abc")
              (one_map short_links ∅)).2 7%nat =
    Some {| reply_status := 302; reply_Location := "https://example.com/abc" |}.
Proof.
  apply (MapHandler_redirect_found replying_Redirect reply_in).
  - intros w r url code σ. apply lookup_insert_eq.
  - reflexivity.
Defined.

(** A GET and a POST for the same path, with other headers, query and
    body, against two states that hold the same map contents at different
    addresses. *)
Lemma dispatch_depends_on_path_and_map_witness :
  exists a : Action,
    MapHandler rec_Redirect 1%positive rec_fallback tt (get "/abc") (one_map short_links []) =
      do_action rec_Redirect rec_fallback a tt (get "/abc") (one_map short_links []) /\
    MapHandler rec_Redirect 2%positive rec_fallback tt (post "/abc" "x=1")
        {| maps := {[2%positive := short_links; 3%positive := ∅]}; env := [Delegate] |} =
      do_action rec_Redirect rec_fallback a tt (post "/abc" "x=1")
        {| maps := {[2%positive := short_links; 3%positive := ∅]}; env := [Delegate] |} /\
    performs (map_of (one_map short_links ([] : list Action)) 1%positive)
      (url_Path (req_URL (get "/abc"))) a.
Proof.
  apply (dispatch_depends_on_path_and_map (list Action) unit rec_Redirect _ _ rec_fallback
           1%positive 2%positive tt tt (get "/abc") (post "/abc" "x=1")
           (one_map short_links [])
           {| maps := {[2%positive := short_links; 3%positive := ∅]}; env := [Delegate] |}).
  - reflexivity.
  - reflexivity.
Defined.

(** Three entries, two of them for ["/a"]: the later one is kept. *)
Example makeYAMLToMap_duplicate_path :
  let '(pathsToUrls, σ) :=
    makeYAMLToMap [ {| URL := "https://first.example"; Path := "/a" |};
                    {| URL := "https://b.example"; Path := "/b" |};
                    {| URL := "https://second.example"; Path := "/a" |} ]
                  (one_map short_links tt) in
  map_of σ pathsToUrls =
    {[ "/a" := "https://second.example"; "/b" := "https://b.example" ]} /\
  map_of σ 1%positive = short_links.
Proof. vm_compute. split; reflexivity. Qed.

(** The handler built from the sample document redirects ["/b"] and
    passes ["/c"] on to the fallback. *)
Example YAMLHandler_sample :
  exists handler σ,
    YAMLHandler rec_Redirect sample_Unmarshal (String.list_byte_of_string sample_yaml)
      rec_fallback (one_map short_links []) = ((Some handler, None), σ) /\
    env (handler tt (get "/b") σ).2 = [Redirect "https://b.example" 302] /\
    env (handler tt (get "/c") σ).2 = [Delegate].
Proof. eexists _, _. split; [reflexivity|]. split; reflexivity. Qed.

Lemma MapHandler_redirect_or_fallback_witness :
  performs short_links "/abc" (Redirect "https://example.com/abc" StatusFound) /\
  performs short_links "/nope" Delegate.
Proof.
  split.
  - apply (proj1 (MapHandler_redirect_or_fallback short_links "/abc")). reflexivity.
  - apply (proj1 (proj2 (MapHandler_redirect_or_fallback short_links "/nope"))). reflexivity.
Defined.

(** * The loader, continued *)

Section Loader.

Context {Env RW error : Type}.
Variable redirect : RW -> Request -> string -> Z -> @Go Env unit.
Variable unmarshal : list Byte.byte -> list YAMLPathURL * option error.

Implicit Types (σ τ : @World Env) (w : RW) (r : Request).
Implicit Types (m : gmap string string) (l : list YAMLPathURL).

Lemma assigned_app l1 l2 m : assigned (l1 ++ l2) m = assigned l2 (assigned l1 m).
Proof. apply foldl_app. Qed.

Lemma assigned_union l m : assigned l m = assigned l ∅ ∪ m.
Proof.
  apply map_eq; intros path.
  rewrite lookup_union, !assigned_lookup, lookup_empty.
  destruct (last _); [by destruct (m !! path)|].
  by rewrite (left_id None _).
Qed.

Lemma assigned_dom l m : dom (assigned l m) = list_to_set (Path <$> l) ∪ dom m.
Proof.
  revert m; induction l as [|e l IH]; intros m.
  - cbn. by rewrite (left_id_L ∅ _).
  - change (assigned (e :: l) m) with (assigned l (<[Path e := URL e]> m)).
    rewrite IH, dom_insert_L, fmap_cons, list_to_set_cons.
    rewrite !(assoc_L _). f_equal. apply (comm_L _).
Qed.

Lemma remove_dups_length_le (ks : list string) :
  (length (remove_dups ks) <= length ks)%nat.
Proof.
  induction ks as [|k ks IH]; cbn; [done|].
  destruct (decide_rel _ k ks); cbn; lia.
Qed.

Lemma remove_dups_length_NoDup (ks : list string) :
  length (remove_dups ks) = length ks <-> NoDup ks.
Proof.
  induction ks as [|k ks IH]; cbn.
  - split; [constructor|done].
  - pose proof (remove_dups_length_le ks) as Hle.
    rewrite NoDup_cons. destruct (decide_rel _ k ks) as [Hin|Hin]; cbn.
    + split; [lia|]. by intros [? _].
    + rewrite <- IH. split; [intros [= ?]; done|]. intros [_ ->]. done.
Qed.

Lemma assigned_Permutation l l' m :
  l ≡ₚ l' -> NoDup (Path <$> l) -> assigned l m = assigned l' m.
Proof.
  intros Hperm; revert m.
  induction Hperm as [|e l l' Hperm IH|e e' l|l l' l'' Hperm IH Hperm' IH'];
    intros m Hnodup.
  - reflexivity.
  - rewrite fmap_cons in Hnodup. apply NoDup_cons in Hnodup as [_ Hnodup].
    change (assigned (e :: l) m) with (assigned l (<[Path e := URL e]> m)).
    change (assigned (e :: l') m) with (assigned l' (<[Path e := URL e]> m)).
    by apply IH.
  - rewrite !fmap_cons in Hnodup. apply NoDup_cons in Hnodup as [Hne _].
    change (assigned (e' :: e :: l) m)
      with (assigned l (<[Path e := URL e]> (<[Path e' := URL e']> m))).
    change (assigned (e :: e' :: l) m)
      with (assigned l (<[Path e' := URL e']> (<[Path e := URL e]> m))).
    f_equal. apply insert_insert_ne.
    intros Heq. apply Hne. rewrite Heq. left.
  - rewrite IH by done. apply IH'.
    by rewrite <- Hperm.
Qed.

(** The order of the entries does not matter when no two of them have the
    same path: [makeYAMLToMap] builds the same map from the list and from
    any reordering of it. *)
Theorem makeYAMLToMap_Permutation l l' σ :
  l ≡ₚ l' ->
  NoDup (Path <$> l) ->
  makeYAMLToMap l σ = makeYAMLToMap l' σ.
Proof.
  intros Hperm Hnodup. rewrite !makeYAMLToMap_run.
  by rewrite (assigned_Permutation l l' ∅ Hperm Hnodup).
Qed.

(** The built map has one key for each distinct path of the list: never
    more keys than entries, and as many exactly when the paths of the
    entries are pairwise distinct. *)
Theorem makeYAMLToMap_size l σ :
  exists pathsToUrls σ',
    makeYAMLToMap l σ = (pathsToUrls, σ') /\
    size (map_of σ' pathsToUrls) = length (remove_dups (Path <$> l)) /\
    (size (map_of σ' pathsToUrls) <= length l)%nat /\
    (size (map_of σ' pathsToUrls) = length l <-> NoDup (Path <$> l)).
Proof.
  rewrite makeYAMLToMap_run. eexists _, _; split; [reflexivity|].
  unfold map_of; cbn [maps]. rewrite lookup_insert_eq; simpl.
  assert (Hsize : size (assigned l ∅) = length (remove_dups (Path <$> l))).
  { rewrite <- size_dom, assigned_dom, dom_empty_L, (right_id_L ∅ _).
    rewrite <- (size_list_to_set (C := gset string)) by apply NoDup_remove_dups.
    f_equal. apply set_eq; intros path.
    by rewrite !elem_of_list_to_set, elem_of_remove_dups. }
  pose proof (remove_dups_length_le (Path <$> l)) as Hle.
  rewrite length_fmap in Hle.
  rewrite Hsize. split; [done|]. split; [done|].
  rewrite <- (length_fmap Path l) at 1. apply remove_dups_length_NoDup.
Qed.

(** Building from two lists one after the other: the map of [l1 ++ l2]
    is the map of [l2] completed, on the paths that [l2] does not have, by
    the map of [l1]. *)
Theorem makeYAMLToMap_app l1 l2 σ :
  exists p1 σ1 p2 σ2 p σ',
    makeYAMLToMap l1 σ = (p1, σ1) /\
    makeYAMLToMap l2 σ = (p2, σ2) /\
    makeYAMLToMap (l1 ++ l2) σ = (p, σ') /\
    map_of σ' p = map_of σ2 p2 ∪ map_of σ1 p1.
Proof.
  rewrite !makeYAMLToMap_run. eexists _, _, _, _, _, _.
  repeat (split; [reflexivity|]).
  unfold map_of; cbn [maps]. rewrite !lookup_insert_eq; simpl.
  by rewrite assigned_app, assigned_union.
Qed.

End Loader.

(** * The handler of a decoded document *)

Section Served.

Context {Env RW error : Type}.
Variable redirect : RW -> Request -> string -> Z -> @Go Env unit.
Variable unmarshal : list Byte.byte -> list YAMLPathURL * option error.
Context {H : Type} {HH : @Handler Env RW H}.

Implicit Types (σ τ : @World Env) (w : RW) (r : Request) (fallback : H).
Implicit Types (l : list YAMLPathURL) (pathsToUrls inner : loc).

Lemma makeYAMLToMap_lookup l σ pathsToUrls σ' (path : string) :
  makeYAMLToMap l σ = (pathsToUrls, σ') ->
  map_of σ' pathsToUrls !! path = URL <$> last (filter (fun e => Path e = path) l).
Proof.
  rewrite makeYAMLToMap_run. intros [= <- <-].
  unfold map_of; cbn [maps]. rewrite lookup_insert_eq; simpl.
  rewrite assigned_lookup, lookup_empty. by destruct (last _).
Qed.

(** When the document decodes to a list, the handler of [YAMLHandler]
    redirects a request to the URL of the last entry that has the request
    path, with [http.StatusFound], and calls the fallback when no entry has
    it; this in every state that holds the map as built. *)
Theorem YAMLHandler_serves_last_entry yml fallback l σ :
  unmarshal yml = (l, None) ->
  exists handler pathsToUrls σ',
    YAMLHandler redirect unmarshal yml fallback σ = ((Some handler, None), σ') /\
    forall w r τ,
      map_of τ pathsToUrls = map_of σ' pathsToUrls ->
      handler w r τ =
      do_action redirect fallback
        (match last (filter (fun e => Path e = url_Path (req_URL r)) l) with
         | Some e => Redirect (URL e) StatusFound
         | None => Delegate
         end) w r τ.
Proof.
  intros Hl. rewrite (YAMLHandler_run_ok _ _ _ _ _ _ Hl).
  destruct (makeYAMLToMap l σ) as [pathsToUrls σ'] eqn:Hmake.
  eexists _, pathsToUrls, _; split; [reflexivity|].
  intros w r τ Hτ. rewrite MapHandler_run, Hτ.
  rewrite (makeYAMLToMap_lookup _ _ _ _ _ Hmake).
  by destruct (last _).
Qed.

(** [YAMLHandler] leaves what exists as it is, on every input: the
    environment and every map of the state are unchanged.  On an error the
    state is unchanged altogether; on success one map is added, at an
    address that was not in use, and the handler is the one of
    [MapHandler] for it. *)
Theorem YAMLHandler_frame yml fallback σ :
  env (YAMLHandler redirect unmarshal yml fallback σ).2 = env σ /\
  maps σ ⊆ maps (YAMLHandler redirect unmarshal yml fallback σ).2 /\
  match (YAMLHandler redirect unmarshal yml fallback σ).1.1 with
  | Some handler =>
      exists pathsToUrls,
        maps σ !! pathsToUrls = None /\
        handler = MapHandler redirect pathsToUrls fallback /\
        dom (maps (YAMLHandler redirect unmarshal yml fallback σ).2) =
          {[pathsToUrls]} ∪ dom (maps σ)
  | None => (YAMLHandler redirect unmarshal yml fallback σ).2 = σ
  end.
Proof.
  unfold YAMLHandler, parseYAML.
  destruct (unmarshal yml) as [l [e|]].
  - by repeat split.
  - unfold mbind, Go_bind. rewrite makeYAMLToMap_run; cbn.
    assert (Hfresh : maps σ !! fresh (dom (maps σ)) = None)
      by apply not_elem_of_dom, is_fresh.
    split; [done|]. split; [by apply insert_subseteq|].
    eexists; split; [exact Hfresh|]. split; [done|]. apply dom_insert_L.
Qed.

End Served.

(** The usual stacking, [YAMLHandler(yml, MapHandler(inner, fallback))]:
    the entries of the document come first (the last one with the request
    path), then the inner map, then the fallback. *)
Theorem YAMLHandler_over_MapHandler
    (Env RW error : Type) (redirect : RW -> Request -> string -> Z -> @Go Env unit)
    (unmarshal : list Byte.byte -> list YAMLPathURL * option error)
    (H : Type) (HH : @Handler Env RW H) (fallback : H) (inner : loc)
    (yml : list Byte.byte) (l : list YAMLPathURL) (σ : @World Env) :
  unmarshal yml = (l, None) ->
  exists handler pathsToUrls σ',
    YAMLHandler redirect unmarshal yml (MapHandler redirect inner fallback) σ =
      ((Some handler, None), σ') /\
    forall w r τ,
      map_of τ pathsToUrls = map_of σ' pathsToUrls ->
      handler w r τ =
      do_action redirect fallback
        (match last (filter (fun e => Path e = url_Path (req_URL r)) l) with
         | Some e => Redirect (URL e) StatusFound
         | None =>
             match map_of τ inner !! url_Path (req_URL r) with
             | Some url => Redirect url StatusFound
             | None => Delegate
             end
         end) w r τ.
Proof.
  intros Hl. rewrite (YAMLHandler_run_ok _ _ _ _ _ _ Hl).
  destruct (makeYAMLToMap l σ) as [pathsToUrls σ'] eqn:Hmake.
  eexists _, pathsToUrls, _; split; [reflexivity|].
  intros w r τ Hτ. rewrite MapHandler_run, Hτ.
  rewrite (makeYAMLToMap_lookup _ _ _ _ _ Hmake).
  destruct (last _); [reflexivity|]. cbn [fmap option_fmap option_map do_action].
  unfold ServeHTTP at 1, HandlerFunc_Handler. apply MapHandler_run.
Qed.

(** ** Examples, continued *)

Lemma makeYAMLToMap_Permutation_witness :
  makeYAMLToMap sample_entries (one_map short_links tt) =
  makeYAMLToMap (reverse sample_entries) (one_map short_links tt).
Proof.
  apply (makeYAMLToMap_Permutation sample_entries (reverse sample_entries)
           (one_map short_links tt)).
  - apply perm_swap.
  - cbn. apply NoDup_cons. split.
    + intros Hin. apply list_elem_of_singleton in Hin. discriminate.
    + apply NoDup_singleton.
Defined.

Lemma YAMLHandler_serves_last_entry_witness :
  exists handler pathsToUrls σ',
    YAMLHandler rec_Redirect sample_Unmarshal (String.list_byte_of_string sample_yaml)
      rec_fallback (one_map short_links []) = ((Some handler, None), σ') /\
    forall w r τ,
      map_of τ pathsToUrls = map_of σ' pathsToUrls ->
      handler w r τ =
      do_action rec_Redirect rec_fallback
        (match last (filter (fun e => Path e = url_Path (req_URL r)) sample_entries) with
         | Some e => Redirect (URL e) StatusFound
         | None => Delegate
         end) w r τ.
Proof.
  apply (YAMLHandler_serves_last_entry rec_Redirect sample_Unmarshal
           (String.list_byte_of_string sample_yaml) rec_fallback sample_entries
           (one_map short_links [])).
  reflexivity.
Defined.

Lemma YAMLHandler_over_MapHandler_witness :
  exists handler pathsToUrls σ',
    YAMLHandler rec_Redirect sample_Unmarshal (String.list_byte_of_string sample_yaml)
      (MapHandler rec_Redirect 1%positive rec_fallback) (one_map short_links []) =
      ((Some handler, None), σ') /\
    forall w r τ,
      map_of τ pathsToUrls = map_of σ' pathsToUrls ->
      handler w r τ =
      do_action rec_Redirect rec_fallback
        (match last (filter (fun e => Path e = url_Path (req_URL r)) sample_entries) with
         | Some e => Redirect (URL e) StatusFound
         | None =>
             match map_of τ 1%positive !! url_Path (req_URL r) with
             | Some url => Redirect url StatusFound
             | None => Delegate
             end
         end) w r τ.
Proof.
  apply (YAMLHandler_over_MapHandler (list Action) unit string rec_Redirect sample_Unmarshal
           _ _ rec_fallback 1%positive (String.list_byte_of_string sample_yaml)
           sample_entries (one_map short_links [])).
  reflexivity.
Defined.

(** The stacked handlers on the sample document: ["/a"] is the
    document's, ["/abc"] the inner map's, ["/c"] nobody's. *)
Example YAMLHandler_over_MapHandler_sample :
  exists handler σ,
    YAMLHandler rec_Redirect sample_Unmarshal (String.list_byte_of_string sample_yaml)
      (MapHandler rec_Redirect 1%positive rec_fallback) (one_map short_links []) =
      ((Some handler, None), σ) /\
    env (handler tt (get "/a") σ).2 = [Redirect "https://a.example" 302] /\
    env (handler tt (get "/abc") σ).2 = [Redirect "https://example.com/abc" 302] /\
    env (handler tt (get "/c") σ).2 = [Delegate].
Proof. eexists _, _. split; [reflexivity|]. repeat split. Qed.
